(** * hono-stripe-webhook-middleware: the Stripe webhook verification step

    A shallow embedding of [stripeWebhookMiddleware] (src/index.ts) and the
    properties its specification states about it.

    The middleware is thin glue between three collaborators that live
    outside the repository: the Hono request context ([c.req.header],
    [c.req.text], [c.set]), the Stripe verifier
    ([Stripe.webhooks.constructEventAsync]) and the rest of the pipeline
    ([next]).  The handler is therefore embedded as a finite tree of calls
    to those collaborators ([Prog]); an interpreter ([run]) plays the
    collaborators against a request context and records every call, so
    that "the step never reads the body" or "the event is stored before
    [next] runs" are statements about the recorded calls, for every
    possible behaviour of the collaborators. *)

From Stdlib Require Import ZArith NArith Ascii String List Bool.
From stdpp Require Import base option strings gmap fin_maps.
Import ListNotations.

Local Open Scope string_scope.
#[local] Set Warnings "-register-all".

(** ** JavaScript values reaching the secret parameter

    The parameter is typed [string]; the test-suite also passes [null] and
    [undefined] through casts, and a call without arguments reads
    [args[0]] as [undefined]. *)
Inductive JSValue : Type :=
| JSUndefined
| JSNull
| JSString (s : string).

(** [RegExp.prototype.test] applies ToString to its argument. *)
Definition ToString (v : JSValue) : string :=
  match v with
  | JSUndefined => "undefined"
  | JSNull => "null"
  | JSString s => s
  end.

(** ** Regular expressions

    Strings are sequences of bytes.  The only character class of the
    pattern is ASCII, and no byte of a multi-byte character lies in it, so
    matching bytes and matching UTF-16 code units agree on this pattern. *)
Module Regex.

Inductive regex : Type :=
| Empty
| Eps
| Chr (c : ascii)
| Rng (lo hi : ascii)
| Cat (r1 r2 : regex)
| Alt (r1 r2 : regex)
| Star (r : regex).

(** [r+] *)
Definition Plus (r : regex) : regex := Cat r (Star r).

(** A literal run of characters. *)
Fixpoint Lit (s : list ascii) : regex :=
  match s with
  | [] => Eps
  | c :: s' => Cat (Chr c) (Lit s')
  end.

Definition in_range (lo hi c : ascii) : bool :=
  (N_of_ascii lo <=? N_of_ascii c)%N && (N_of_ascii c <=? N_of_ascii hi)%N.

Fixpoint nullable (r : regex) : bool :=
  match r with
  | Empty => false
  | Eps => true
  | Chr _ => false
  | Rng _ _ => false
  | Cat r1 r2 => nullable r1 && nullable r2
  | Alt r1 r2 => nullable r1 || nullable r2
  | Star _ => true
  end.

(** Brzozowski derivative: what is left of [r] after reading [a]. *)
Fixpoint deriv (a : ascii) (r : regex) : regex :=
  match r with
  | Empty => Empty
  | Eps => Empty
  | Chr c => if Ascii.eqb a c then Eps else Empty
  | Rng lo hi => if in_range lo hi a then Eps else Empty
  | Cat r1 r2 =>
      if nullable r1
      then Alt (Cat (deriv a r1) r2) (deriv a r2)
      else Cat (deriv a r1) r2
  | Alt r1 r2 => Alt (deriv a r1) (deriv a r2)
  | Star r1 => Cat (deriv a r1) (Star r1)
  end.

(** Whole-input matching, i.e. the pattern between [^] and [$] (without the
    [m] flag the two anchors are the ends of the input). *)
Fixpoint accepts (r : regex) (s : list ascii) : bool :=
  match s with
  | [] => nullable r
  | a :: s' => accepts (deriv a r) s'
  end.

(** [/^r$/.test(s)] *)
Definition test (r : regex) (s : string) : bool :=
  accepts r (list_ascii_of_string s).

(** The language of a regular expression, as a relation. *)
Inductive matches : regex -> list ascii -> Prop :=
| M_Eps : matches Eps []
| M_Chr c : matches (Chr c) [c]
| M_Rng lo hi c : in_range lo hi c = true -> matches (Rng lo hi) [c]
| M_Cat r1 r2 s1 s2 :
    matches r1 s1 -> matches r2 s2 -> matches (Cat r1 r2) (s1 ++ s2)
| M_AltL r1 r2 s : matches r1 s -> matches (Alt r1 r2) s
| M_AltR r1 r2 s : matches r2 s -> matches (Alt r1 r2) s
| M_Star0 r : matches (Star r) []
| M_StarS r s1 s2 :
    matches r s1 -> matches (Star r) s2 -> matches (Star r) (s1 ++ s2).

End Regex.

Import Regex.

(** [[a-zA-Z0-9]] *)
Definition alnum_class : regex :=
  Alt (Rng "a" "z") (Alt (Rng "A" "Z") (Rng "0" "9")).

(** The literal [/^whsec_[a-zA-Z0-9]+$/] of the source. *)
Definition whsec_pattern : regex :=
  Cat (Lit (list_ascii_of_string "whsec_")) (Plus alnum_class).

(** The shape in the words of the specification: [whsec_] followed by one
    or more alphanumeric characters. *)
Definition is_alnum (c : ascii) : bool :=
  let n := N_of_ascii c in
  ((97 <=? n) && (n <=? 122) || (65 <=? n) && (n <=? 90)
   || (48 <=? n) && (n <=? 57))%N.

Definition secret_shape (s : string) : Prop :=
  exists t : list ascii,
    list_ascii_of_string s = (list_ascii_of_string "whsec_" ++ t)%list
    /\ t <> [] /\ forallb is_alnum t = true.

(** ** Thrown values *)

(** [new Error(message)] (Stripe's verification errors are sub-classes of
    it) and Hono's [new HTTPException(status, { message, cause })]. *)
Inductive Exn : Type :=
| JSError (message : string)
| HTTPException (status : Z) (message : string) (cause : option Exn).

Definition exn_message (e : Exn) : string :=
  match e with
  | JSError m => m
  | HTTPException _ m _ => m
  end.

Definition exn_cause (e : Exn) : option Exn :=
  match e with
  | JSError _ => None
  | HTTPException _ _ c => c
  end.

(** The two errors the handler raises itself. *)
Definition missing_signature : Exn :=
  HTTPException 400 "Missing stripe-signature header" None.

Definition verification_failed (cause : Exn) : Exn :=
  HTTPException 400 "Stripe webhook signature verification failed"
                (Some cause).

Record Response : Type := mkResponse {
  res_status : Z;
  res_body : string;
  res_headers : list (string * string)
}.

(** Modelled from the spec: [HTTPException.getResponse] belongs to Hono and
    is not among the sources.  Section 6 gives the failure surface: the
    exception's status, a plain body holding its short message, no custom
    headers.  A plain [Error] is no HTTP error and has no response. *)
Definition getResponse (e : Exn) : option Response :=
  match e with
  | JSError _ => None
  | HTTPException status message _ => Some (mkResponse status message [])
  end.

Definition lower_ascii (c : ascii) : ascii :=
  let n := N_of_ascii c in
  if ((65 <=? n) && (n <=? 90))%N then ascii_of_N (n + 32) else c.

Fixpoint lower (s : string) : string :=
  match s with
  | EmptyString => EmptyString
  | String c s' => String (lower_ascii c) (lower s')
  end.

(** ** The handler as a tree of calls to its collaborators *)

Section Middleware.

(** [Stripe.Event], and whatever follows the secret in the rest tuple
    [...args] (tolerance, crypto provider, ...): both are opaque to the
    middleware. *)
Variables Event Opt : Type.

(** [...args]: the parameters of [constructEventAsync] after [payload] and
    [header]. *)
Record Args : Type := mkArgs {
  secret : JSValue;
  extra : list Opt
}.

(** The calls the handler makes, indexed by what they answer.  An awaited
    promise answers with its value or with its rejection. *)
Inductive Eff : Type -> Type :=
| ReqHeader (name : string) : Eff (option string)
| ReqText : Eff (Exn + string)
| ConstructEventAsync (payload header : string) (args : Args) :
    Eff (Exn + Event)
| CtxSet (key : string) (value : Event) : Eff unit
| Next : Eff (Exn + unit).

Inductive Prog (A : Type) : Type :=
| Ret (a : A)
| Throw (e : Exn)
| Vis {X : Type} (op : Eff X) (k : X -> Prog A).

Arguments Ret {A} a.
Arguments Throw {A} e.
Arguments Vis {A X} op k.

Fixpoint bind {A B : Type} (p : Prog A) (f : A -> Prog B) : Prog B :=
  match p with
  | Ret a => f a
  | Throw e => Throw e
  | Vis op k => Vis op (fun x => bind (k x) f)
  end.

(** A synchronous call. *)
Definition call {X : Type} (op : Eff X) : Prog X := Vis op Ret.

(** [await op]: a rejection is thrown at the [await]. *)
Definition await {X : Type} (op : Eff (Exn + X)) : Prog X :=
  Vis op (fun r => match r with inl e => Throw e | inr x => Ret x end).

(** [try { p } catch (cause) { h cause }] *)
Fixpoint try_catch {A : Type} (p : Prog A) (h : Exn -> Prog A) : Prog A :=
  match p with
  | Ret a => Ret a
  | Throw e => h e
  | Vis op k => Vis op (fun x => try_catch (k x) h)
  end.

(** [!signature] for a [string | undefined]: [undefined] and the empty
    string are falsy. *)
Definition js_not (v : option string) : bool :=
  match v with
  | None => true
  | Some s => String.eqb s ""
  end.

(** The value of a [string | undefined] once narrowed to [string]. *)
Definition narrowed (v : option string) : string := default "" v.

#[local] Instance Prog_bind : MBind Prog := fun A B f p => bind p f.

(** The function returned by [stripeWebhookMiddleware(...args)]:
    [async (c, next) => { ... }]. *)
Definition handler (args : Args) : Prog unit :=
  signature ← call (ReqHeader "stripe-signature");
  if js_not signature then
    Throw (HTTPException 400 "Missing stripe-signature header" None)
  else
    body ← await ReqText;
    try_catch
      (event ← await (ConstructEventAsync body (narrowed signature) args);
       call (CtxSet "event" event))
      (fun cause =>
         Throw (HTTPException 400
                  "Stripe webhook signature verification failed"
                  (Some cause)));;
    await Next.

(** [stripeWebhookMiddleware(...args)]: throws, or returns the handler. *)
Definition stripeWebhookMiddleware (args : Args) : Exn + Prog unit :=
  if negb (test whsec_pattern (ToString (secret args))) then
    inl (JSError "Invalid webhook secret")
  else
    inr (handler args).

(** ** The request context and the collaborators *)

Record Context : Type := mkContext {
  req_headers : gmap string string;   (* names in lower case *)
  req_body : Exn + string;            (* what [await c.req.text()] gives *)
  vars : gmap string Event;           (* [c.set] / [c.get] *)
  res : option Response               (* [c.res] *)
}.

Definition set_var (key : string) (value : Event) (c : Context) : Context :=
  mkContext (req_headers c) (req_body c) (<[key := value]> (vars c)) (res c).

(** The verifier is a function of its arguments; [next] may do anything to
    the context and may reject. *)
Record Env : Type := mkEnv {
  constructEventAsync : string -> string -> Args -> Exn + Event;
  next : Context -> Context * (Exn + unit)
}.

(** A record of one call: what was asked, and for [next] the context it was
    handed. *)
Inductive Call : Type :=
| CallHeader (name : string)
| CallText
| CallVerify (payload header : string) (args : Args)
| CallSet (key : string) (value : Event)
| CallNext (c : Context).

Definition handle (E : Env) {X : Type} (op : Eff X) (c : Context)
  : Context * X * Call :=
  match op in Eff X return Context * X * Call with
  | ReqHeader name => (c, req_headers c !! name, CallHeader name)
  | ReqText => (c, req_body c, CallText)
  | ConstructEventAsync payload header args =>
      (c, constructEventAsync E payload header args,
       CallVerify payload header args)
  | CtxSet key value => (set_var key value c, tt, CallSet key value)
  | Next => let (c', r) := next E c in (c', r, CallNext c)
  end.

(** One execution: the final context, the calls made in order, and the
    outcome (the rejection, or the returned value). *)
Fixpoint run (E : Env) {A : Type} (p : Prog A) (c : Context)
  : Context * list Call * (Exn + A) :=
  match p with
  | Ret a => (c, [], inr a)
  | Throw e => (c, [], inl e)
  | Vis op k =>
      let '(c1, x, call1) := handle E op c in
      let '(c2, calls, out) := run E (k x) c1 in
      (c2, call1 :: calls, out)
  end.

Definition final_context {A : Type} (r : Context * list Call * (Exn + A))
  : Context := fst (fst r).
Definition calls {A : Type} (r : Context * list Call * (Exn + A))
  : list Call := snd (fst r).
Definition outcome {A : Type} (r : Context * list Call * (Exn + A))
  : Exn + A := snd r.

Definition is_next (k : Call) : bool :=
  match k with CallNext _ => true | _ => false end.
Definition is_text (k : Call) : bool :=
  match k with CallText => true | _ => false end.
Definition is_verify (k : Call) : bool :=
  match k with CallVerify _ _ _ => true | _ => false end.
Definition is_set (k : Call) : bool :=
  match k with CallSet _ _ => true | _ => false end.

(** The four ways through the handler, each with the condition under which
    it is taken and the execution it gives. *)
Inductive Path (E : Env) (args : Args) (c : Context)
  : Context * list Call * (Exn + unit) -> Prop :=
| PathMissing :
    js_not (req_headers c !! "stripe-signature") = true ->
    Path E args c (c, [CallHeader "stripe-signature"], inl missing_signature)
| PathBodyFailed signature e :
    req_headers c !! "stripe-signature" = Some signature ->
    signature <> "" ->
    req_body c = inl e ->
    Path E args c (c, [CallHeader "stripe-signature"; CallText], inl e)
| PathRejected signature body cause :
    req_headers c !! "stripe-signature" = Some signature ->
    signature <> "" ->
    req_body c = inr body ->
    constructEventAsync E body signature args = inl cause ->
    Path E args c
         (c, [CallHeader "stripe-signature"; CallText;
              CallVerify body signature args],
          inl (verification_failed cause))
| PathAccepted signature body event :
    req_headers c !! "stripe-signature" = Some signature ->
    signature <> "" ->
    req_body c = inr body ->
    constructEventAsync E body signature args = inr event ->
    Path E args c
         (fst (next E (set_var "event" event c)),
          [CallHeader "stripe-signature"; CallText;
           CallVerify body signature args;
           CallSet "event" event; CallNext (set_var "event" event c)],
          snd (next E (set_var "event" event c))).

(** The uses of the request context the specification allows the step:
    reading the [stripe-signature] header, reading the body, writing the
    [event] slot.  Calls to the verifier and to [next] are no uses of the
    context. *)
Definition context_use_allowed (k : Call) : Prop :=
  match k with
  | CallHeader name => name = "stripe-signature"
  | CallText => True
  | CallSet key _ => key = "event"
  | CallVerify _ _ _ => True
  | CallNext _ => True
  end.

(** Two contexts that differ at most in the [event] slot. *)
Definition same_but_event (c c1 : Context) : Prop :=
  req_headers c1 = req_headers c
  /\ req_body c1 = req_body c
  /\ res c1 = res c
  /\ forall key, key <> "event" -> vars c1 !! key = vars c !! key.

(** The request with its signature header removed. *)
Definition without_signature (c : Context) : Context :=
  mkContext (delete "stripe-signature" (req_headers c))
            (req_body c) (vars c) (res c).

(** The invariant of the data model, as the specification words it: after
    the step the [event] slot is present if and only if the step completed
    without raising. *)
Definition event_iff_completed (E : Env) (args : Args) (c : Context) : Prop :=
  let r := run E (handler args) c in
  is_Some (vars (final_context r) !! "event") <-> outcome r = inr tt.

(** The body of the response a failing step leads to is [message]. *)
Definition error_body_is (E : Env) (args : Args) (c : Context)
    (message : string) : Prop :=
  exists e resp,
    outcome (run E (handler args) c) = inl e
    /\ getResponse e = Some resp /\ res_body resp = message.

End Middleware.

Arguments mkArgs {Opt} secret extra.
Arguments secret {Opt} a.
Arguments extra {Opt} a.
Arguments ReqHeader {Event Opt} name.
Arguments ReqText {Event Opt}.
Arguments ConstructEventAsync {Event Opt} payload header args.
Arguments CtxSet {Event Opt} key value.
Arguments Next {Event Opt}.
Arguments Ret {Event Opt A} a.
Arguments Throw {Event Opt A} e.
Arguments Vis {Event Opt A X} op k.
Arguments bind {Event Opt A B} p f.
Arguments call {Event Opt X} op.
Arguments await {Event Opt X} op.
Arguments try_catch {Event Opt A} p h.
Arguments handler {Event Opt} args.
Arguments stripeWebhookMiddleware {Event Opt} args.
Arguments mkContext {Event} req_headers req_body vars res.
Arguments req_headers {Event} c.
Arguments req_body {Event} c.
Arguments vars {Event} c.
Arguments res {Event} c.
Arguments set_var {Event} key value c.
Arguments mkEnv {Event Opt} constructEventAsync next.
Arguments constructEventAsync {Event Opt} E payload header args : rename.
Arguments next {Event Opt} E c : rename.
Arguments CallHeader {Event Opt} name.
Arguments CallText {Event Opt}.
Arguments CallVerify {Event Opt} payload header args.
Arguments CallSet {Event Opt} key value.
Arguments CallNext {Event Opt} c.
Arguments handle {Event Opt} E {X} op c.
Arguments run {Event Opt} E {A} p c.
Arguments final_context {Event Opt A} r.
Arguments calls {Event Opt A} r.
Arguments outcome {Event Opt A} r.
Arguments is_next {Event Opt} k.
Arguments is_text {Event Opt} k.
Arguments is_verify {Event Opt} k.
Arguments is_set {Event Opt} k.
Arguments Path {Event Opt} E args c r.
Arguments context_use_allowed {Event Opt} k.
Arguments same_but_event {Event} c c1.
Arguments without_signature {Event} c.
Arguments event_iff_completed {Event Opt} E args c.
Arguments error_body_is {Event Opt} E args c message.

(** ** The fixtures of the test-suite

    [SECRET] and the payload are the test file's; the verifier is a double
    of Stripe's that accepts one header for that payload and secret. *)
Module Fixture.

Definition SECRET : string := "whsec_test".

(** The parsed event: its fields. *)
Abbreviation StripeEvent := (list (string * string)).

Definition EVENT_PAYLOAD : StripeEvent :=
  [("id", "evt_test_webhook"); ("object", "event")].

(** Stands for the JSON text of [EVENT_PAYLOAD]. *)
Definition EVENT_PAYLOAD_STRING : string :=
  "{id: evt_test_webhook, object: event}".

Definition args : Args N := mkArgs (JSString SECRET) [].

Definition good_header : string := "t=1,v1=good".
Definition bad_header : string := "t=1,v1=bad_signature".

Definition verifier_double (payload header : string) (a : Args N)
  : Exn + StripeEvent :=
  match secret a with
  | JSString s =>
      if String.eqb payload EVENT_PAYLOAD_STRING
         && String.eqb header good_header && String.eqb s SECRET
      then inr EVENT_PAYLOAD
      else inl (JSError "No signatures found matching the expected signature")
  | _ => inl (JSError "No webhook secret")
  end.

(** The route handler of the tests: [(c) => c.body(null, 200)]. *)
Definition next_200 (c : Context StripeEvent)
  : Context StripeEvent * (Exn + unit) :=
  (mkContext (req_headers c) (req_body c) (vars c)
             (Some (mkResponse 200 "" [])), inr tt).

(** A downstream handler that throws. *)
Definition next_throws (c : Context StripeEvent)
  : Context StripeEvent * (Exn + unit) :=
  (c, inl (JSError "handler failed")).

Definition env_200 : Env StripeEvent N :=
  mkEnv verifier_double next_200.
Definition env_throws : Env StripeEvent N :=
  mkEnv verifier_double next_throws.

(** A request carrying the payload and, possibly, a signature header. *)
Definition request (signature : option string)
  : Context StripeEvent :=
  mkContext
    (match signature with
     | Some h => {[ "stripe-signature" := h ]}
     | None => ∅
     end)
    (inr EVENT_PAYLOAD_STRING) ∅ None.

(** The same request in a context that an earlier step has already
    written to. *)
Definition request_in_use (signature : option string) : Context StripeEvent :=
  mkContext (<["user-agent" := "Stripe/1.0"]> (req_headers (request signature)))
            (req_body (request signature))
            {[ "session" := [("id", "sess_1")] ]}
            (Some (mkResponse 404 "404 Not Found" [])).

End Fixture.

(** ** Callers of the middleware *)

Section Callers.

Variables Event Opt : Type.

(** README, "Dynamic Configuration": the middleware built per request from
    a binding of the environment,

      [(c, next) => {
         const middleware = stripeWebhookMiddleware(c.env.STRIPE_WEBHOOK_SECRET);
         return middleware(c, next);
       }]

    The parameter is the value of the binding; a throw of the construction
    is the throw of the wrapper. *)
Definition dynamic_middleware (STRIPE_WEBHOOK_SECRET : JSValue)
  : Prog Event Opt unit :=
  match stripeWebhookMiddleware (mkArgs STRIPE_WEBHOOK_SECRET []) with
  | inl e => Throw e
  | inr middleware => middleware
  end.

(** A step passed as the [next] of another one, [() => step(c, next)]:
    it runs on the context it is handed and ends as it ends. *)
Definition step_as_next (E : Env Event Opt) (step : Prog Event Opt unit)
    (c : Context Event) : Context Event * (Exn + unit) :=
  let r := run E step c in (final_context r, outcome r).

(** The collaborators seen by a step that is followed by [step]. *)
Definition followed_by (E : Env Event Opt) (step : Prog Event Opt unit)
  : Env Event Opt :=
  mkEnv (constructEventAsync E) (step_as_next E step).

(** The place of a call in the text of the handler. *)
Definition call_rank (k : Call Event Opt) : nat :=
  match k with
  | CallHeader _ => 0
  | CallText => 1
  | CallVerify _ _ _ => 2
  | CallSet _ _ => 3
  | CallNext _ => 4
  end.

End Callers.

Arguments dynamic_middleware {Event Opt} STRIPE_WEBHOOK_SECRET.
Arguments step_as_next {Event Opt} E step c.
Arguments followed_by {Event Opt} E step.
Arguments call_rank {Event Opt} k.

Module MoreFixtures.

Import Fixture.

(** A request whose body cannot be read: [c.req.text()] rejects. *)
Definition request_unreadable (signature : option string)
  : Context StripeEvent :=
  mkContext (req_headers (request signature))
            (inl (JSError "Body is unusable")) ∅ None.

(** A secret as it comes out of an environment file, with the line end. *)
Definition secret_with_newline : string :=
  String.append SECRET (String (ascii_of_nat 10) EmptyString).

End MoreFixtures.

(** * Properties *)

(** ** The matcher computes the language of the pattern *)

Module RegexFacts.

Local Open Scope list_scope.

Lemma nullable_matches r : nullable r = true <-> matches r [].
Proof.
  split.
  - induction r; simpl; intros Hn; try discriminate.
    + constructor.
    + apply andb_true_iff in Hn as [H1 H2].
      change (@nil ascii) with (@nil ascii ++ []).
      constructor; auto.
    + apply orb_true_iff in Hn as [H1 | H2];
        [apply M_AltL | apply M_AltR]; auto.
    + constructor.
  - intros Hm. remember (@nil ascii) as w eqn:Hw.
    induction Hm; simpl; try discriminate; auto.
    + apply app_eq_nil in Hw as [-> ->].
      rewrite IHHm1, IHHm2; auto.
    + rewrite IHHm; auto.
    + rewrite IHHm; auto using orb_true_r.
Qed.

Lemma deriv_sound a r : forall s, matches (deriv a r) s -> matches r (a :: s).
Proof.
  induction r; simpl; intros s Hm.
  - inversion Hm.
  - inversion Hm.
  - destruct (Ascii.eqb a c) eqn:Hac; inversion Hm; subst.
    apply Ascii.eqb_eq in Hac as ->. constructor.
  - destruct (in_range lo hi a) eqn:Hr; inversion Hm; subst.
    constructor; assumption.
  - assert (Hleft : forall w, matches (Cat (deriv a r1) r2) w ->
                              matches (Cat r1 r2) (a :: w)).
    { intros w Hw. inversion Hw; subst.
      change (a :: s1 ++ s2) with ((a :: s1) ++ s2).
      constructor; auto. }
    destruct (nullable r1) eqn:Hn; [| auto].
    inversion Hm; subst; [auto |].
    change (a :: s) with ([] ++ a :: s).
    constructor; [apply nullable_matches; assumption | auto].
  - inversion Hm; subst; [apply M_AltL | apply M_AltR]; auto.
  - inversion Hm; subst.
    change (a :: s1 ++ s2) with ((a :: s1) ++ s2).
    constructor; auto.
Qed.

Lemma deriv_complete a r s : matches r (a :: s) -> matches (deriv a r) s.
Proof.
  intros Hm. remember (a :: s) as w eqn:Hw. revert s Hw.
  induction Hm; intros w Hw; simpl; try discriminate.
  - injection Hw as -> <-. rewrite Ascii.eqb_refl. constructor.
  - injection Hw as -> <-. rewrite H. constructor.
  - destruct s1 as [| b s1]; simpl in Hw.
    + subst s2. apply nullable_matches in Hm1. rewrite Hm1.
      apply M_AltR. auto.
    + injection Hw as -> <-.
      assert (Hc : matches (Cat (deriv a r1) r2) (s1 ++ s2))
        by (constructor; auto).
      destruct (nullable r1); [apply M_AltL |]; exact Hc.
  - apply M_AltL; auto.
  - apply M_AltR; auto.
  - destruct s1 as [| b s1]; simpl in Hw.
    + apply (IHHm2 w Hw).
    + injection Hw as -> <-. constructor; auto.
Qed.

Lemma accepts_matches s : forall r, accepts r s = true <-> matches r s.
Proof.
  induction s as [| a s IH]; intros r; simpl.
  - apply nullable_matches.
  - rewrite IH. split; [apply deriv_sound | apply deriv_complete].
Qed.

Lemma matches_Lit l s : matches (Lit l) s <-> s = l.
Proof.
  revert s. induction l as [| c l IH]; intros s; simpl.
  - split; [intros H; inversion H; reflexivity | intros ->; constructor].
  - split.
    + intros H. inversion H as [| | | ? ? s1 s2 H1 H2 | | | |]; subst.
      inversion H1; subst. apply IH in H2 as ->. reflexivity.
    + intros ->. change (c :: l) with ([c] ++ l).
      constructor; [constructor | apply IH; reflexivity].
Qed.

Lemma is_alnum_ranges c :
  is_alnum c = in_range "a" "z" c || in_range "A" "Z" c || in_range "0" "9" c.
Proof. reflexivity. Qed.

Lemma matches_alnum s :
  matches alnum_class s <-> exists c, s = [c] /\ is_alnum c = true.
Proof.
  unfold alnum_class. split.
  - intros H.
    repeat match goal with
           | Hm : matches (Alt _ _) _ |- _ => inversion Hm; subst; clear Hm
           | Hm : matches (Rng _ _) _ |- _ => inversion Hm; subst; clear Hm
           end;
      eexists; (split; [reflexivity |]); rewrite is_alnum_ranges;
      match goal with Hr : in_range _ _ _ = true |- _ => rewrite Hr end;
      rewrite ?orb_true_r; reflexivity.
  - intros (c & -> & Hc). rewrite is_alnum_ranges in Hc.
    apply orb_true_iff in Hc as [Hc | Hc];
      [apply orb_true_iff in Hc as [Hc | Hc] |].
    + apply M_AltL. constructor. exact Hc.
    + apply M_AltR, M_AltL. constructor. exact Hc.
    + apply M_AltR, M_AltR. constructor. exact Hc.
Qed.

Lemma matches_star_alnum s :
  matches (Star alnum_class) s <-> forallb is_alnum s = true.
Proof.
  split.
  - intros H. remember (Star alnum_class) as r eqn:Hr.
    induction H; try discriminate; [reflexivity |].
    injection Hr as ->.
    apply matches_alnum in H as (c & -> & Hc).
    simpl. rewrite Hc. auto.
  - induction s as [| c s IH]; simpl; intros H; [constructor |].
    apply andb_true_iff in H as [Hc Hs].
    change (c :: s) with ([c] ++ s).
    constructor; [apply matches_alnum; eauto | auto].
Qed.

Lemma matches_plus_alnum s :
  matches (Plus alnum_class) s <-> s <> [] /\ forallb is_alnum s = true.
Proof.
  unfold Plus. split.
  - intros H. inversion H as [| | | ? ? s1 s2 H1 H2 | | | |]; subst.
    apply matches_alnum in H1 as (c & -> & Hc).
    apply matches_star_alnum in H2.
    split; [discriminate | simpl; rewrite Hc; exact H2].
  - intros [Hne Hall]. destruct s as [| c s]; [congruence |].
    simpl in Hall. apply andb_true_iff in Hall as [Hc Hs].
    change (c :: s) with ([c] ++ s).
    constructor; [apply matches_alnum; eauto | apply matches_star_alnum; auto].
Qed.

(** The source's pattern accepts exactly the strings of the shape the
    specification describes. *)
Lemma test_whsec_pattern s :
  test whsec_pattern s = true <-> secret_shape s.
Proof.
  unfold test, secret_shape, whsec_pattern.
  rewrite accepts_matches. split.
  - intros H. inversion H as [| | | ? ? s1 s2 H1 H2 Heq | | | |]; subst.
    apply (matches_Lit (list_ascii_of_string "whsec_")) in H1 as ->.
    apply matches_plus_alnum in H2 as [Hne Hall].
    exists s2. auto.
  - intros (t & -> & Hne & Hall).
    constructor; [apply matches_Lit; reflexivity |].
    apply matches_plus_alnum; auto.
Qed.

End RegexFacts.

(** ** The handler, case by case *)

Section HandlerFacts.

Variables Event Opt : Type.
Implicit Types (E : Env Event Opt) (args : Args Opt) (c : Context Event).

(** Every execution of the handler is one of five paths. *)
Lemma run_handler E args c :
  run E (handler args) c =
    match req_headers c !! "stripe-signature" with
    | None => (c, [CallHeader "stripe-signature"], inl missing_signature)
    | Some signature =>
        if String.eqb signature "" then
          (c, [CallHeader "stripe-signature"], inl missing_signature)
        else
          match req_body c with
          | inl e => (c, [CallHeader "stripe-signature"; CallText], inl e)
          | inr body =>
              match constructEventAsync E body signature args with
              | inl cause =>
                  (c, [CallHeader "stripe-signature"; CallText;
                       CallVerify body signature args],
                   inl (verification_failed cause))
              | inr event =>
                  let c1 := set_var "event" event c in
                  (fst (next E c1),
                   [CallHeader "stripe-signature"; CallText;
                    CallVerify body signature args;
                    CallSet "event" event; CallNext c1],
                   snd (next E c1))
              end
          end
    end.
Proof.
  unfold handler. cbn.
  destruct (req_headers c !! "stripe-signature") as [signature |]; cbn;
    [| reflexivity].
  destruct (String.eqb signature "") eqn:Hs; cbn; [reflexivity |].
  destruct (req_body c) as [e | body]; cbn; [reflexivity |].
  destruct (constructEventAsync E body signature args) as [cause | event];
    cbn; [reflexivity |].
  destruct (next E (set_var "event" event c)) as [c2 [e | []]]; reflexivity.
Qed.

Lemma run_handler_path E args c : Path E args c (run E (handler args) c).
Proof.
  rewrite run_handler.
  destruct (req_headers c !! "stripe-signature") as [signature |] eqn:Hh.
  - destruct (String.eqb signature "") eqn:Hs.
    + apply PathMissing. rewrite Hh. exact Hs.
    + apply String.eqb_neq in Hs.
      destruct (req_body c) as [e | body] eqn:Hb.
      * eapply PathBodyFailed; eauto.
      * destruct (constructEventAsync E body signature args)
          as [cause | event] eqn:Hv.
        -- eapply PathRejected; eauto.
        -- eapply PathAccepted; eauto.
  - apply PathMissing. rewrite Hh. reflexivity.
Qed.

(** The verifier is invoked exactly on requests that carry a non-empty
    signature header and a readable body, and then with that body, that
    header and the configured arguments. *)
Lemma verify_called_iff E args c payload header a :
  In (CallVerify payload header a) (calls (run E (handler args) c))
  <-> req_headers c !! "stripe-signature" = Some header
      /\ header <> "" /\ req_body c = inr payload /\ a = args.
Proof.
  pose proof (run_handler_path E args c) as Hp.
  split.
  - intros Hin.
    destruct Hp as [Hm | sg e Hh Hne Hb | sg body cause Hh Hne Hb Hv
                   | sg body event Hh Hne Hb Hv]; cbn in Hin;
      repeat (destruct Hin as [Hin | Hin]; try discriminate Hin);
      try contradiction; injection Hin as <- <- <-; auto.
  - intros (Hh & Hne & Hb & ->).
    destruct Hp as [Hm | sg e Hh' Hne' Hb' | sg body cause Hh' Hne' Hb' Hv
                   | sg body event Hh' Hne' Hb' Hv]; cbn.
    + rewrite Hh in Hm. cbn in Hm. apply String.eqb_eq in Hm. contradiction.
    + congruence.
    + assert (sg = header) by congruence. assert (body = payload) by congruence.
      subst. auto.
    + assert (sg = header) by congruence. assert (body = payload) by congruence.
      subst. auto.
Qed.

End HandlerFacts.

Arguments run_handler {Event Opt} E args c.
Arguments run_handler_path {Event Opt} E args c.
Arguments verify_called_iff {Event Opt} E args c payload header a.

(** ** Construction *)

Lemma secret_shape_matches s :
  secret_shape s <-> matches whsec_pattern (list_ascii_of_string s).
Proof.
  rewrite <- RegexFacts.test_whsec_pattern. apply RegexFacts.accepts_matches.
Qed.

Lemma not_secret_shape s : test whsec_pattern s = false -> ~ secret_shape s.
Proof.
  intros Hf Hs. apply RegexFacts.test_whsec_pattern in Hs. congruence.
Qed.

Section Claims.

Variables Event Opt : Type.
Implicit Types (E : Env Event Opt) (args : Args Opt) (c : Context Event).

(** C1.  Construction checks the secret once, synchronously: a secret
    (after ToString) that does not match [^whsec_[a-zA-Z0-9]+$] makes
    [stripeWebhookMiddleware] throw the configuration error -- its message
    reads "Invalid webhook secret" -- and no handler is returned; the
    empty string, [null] and [undefined] are such secrets.  A secret that
    matches makes construction return the handler. *)
Theorem construction_checks_secret args :
  let s := ToString (secret args) in
  (secret_shape s <-> matches whsec_pattern (list_ascii_of_string s))
  /\ (secret_shape s ->
      stripeWebhookMiddleware (Event := Event) args = inr (handler args))
  /\ (~ secret_shape s ->
      exists e,
        stripeWebhookMiddleware (Event := Event) args = inl e
        /\ e = JSError "Invalid webhook secret"
        /\ lower (exn_message e) = "invalid webhook secret")
  /\ (secret args = JSString "" \/ secret args = JSNull
      \/ secret args = JSUndefined -> ~ secret_shape s).
Proof.
  intros s. split; [apply secret_shape_matches |].
  assert (Hfalsy : secret args = JSString "" \/ secret args = JSNull
                   \/ secret args = JSUndefined -> ~ secret_shape s).
  { intros [H | [H | H]]; subst s; rewrite H;
      apply not_secret_shape; reflexivity. }
  unfold stripeWebhookMiddleware. fold s.
  destruct (test whsec_pattern s) eqn:Ht; cbn; repeat split;
    try exact Hfalsy.
  - apply RegexFacts.test_whsec_pattern in Ht. tauto.
  - intros Hs. apply RegexFacts.test_whsec_pattern in Hs. congruence.
  - intros _. eexists. repeat split.
Qed.

(** ** Requests without a usable signature header *)

(** C2.  When the [stripe-signature] header is absent the step fails the
    request with status 400; the only call it makes is the header lookup:
    the body is not read, the verifier and [next] are not invoked. *)
Theorem missing_header_is_400 E args c :
  req_headers c !! "stripe-signature" = None ->
  let r := run E (handler args) c in
  (exists e, outcome r = inl e
             /\ e = missing_signature
             /\ res_status <$> getResponse e = Some 400%Z)
  /\ calls r = [CallHeader "stripe-signature"]
  /\ existsb is_text (calls r) = false
  /\ existsb is_verify (calls r) = false
  /\ existsb is_next (calls r) = false
  /\ final_context r = c.
Proof.
  intros Hh r. subst r. rewrite run_handler, Hh. cbn.
  repeat split. eexists. repeat split.
Qed.

(** C10.  A [stripe-signature] header whose value is the empty string is
    treated exactly like a missing header: the same 400 error and the same
    single call as on the request without the header; the body is not
    read, the verifier and [next] are not invoked. *)
Theorem empty_header_is_missing E args c :
  req_headers c !! "stripe-signature" = Some "" ->
  let r := run E (handler args) c in
  let r0 := run E (handler args) (without_signature c) in
  outcome r = inl missing_signature
  /\ outcome r = outcome r0
  /\ calls r = calls r0
  /\ calls r = [CallHeader "stripe-signature"]
  /\ existsb is_text (calls r) = false
  /\ existsb is_verify (calls r) = false
  /\ existsb is_next (calls r) = false
  /\ final_context r = c.
Proof.
  intros Hh r r0. subst r r0. rewrite !run_handler, Hh.
  cbn [without_signature req_headers]. rewrite lookup_delete_eq. cbn.
  repeat split.
Qed.

(** ** Requests that reach the verifier *)

(** C3.  When the verifier is invoked and rejects, the step fails the
    request with status 400 and chains the verifier's error as the cause;
    the response built from the error carries the fixed message only, so
    the cause is not in the body.  [next] is not invoked, [c.set] is not
    called and the context is left as it was. *)
Theorem verifier_rejection_is_400 E args c payload header a cause :
  let r := run E (handler args) c in
  In (CallVerify payload header a) (calls r) ->
  constructEventAsync E payload header a = inl cause ->
  req_headers c !! "stripe-signature" = Some header
  /\ (exists e, outcome r = inl e
                /\ e = verification_failed cause
                /\ exn_cause e = Some cause
                /\ getResponse e =
                     Some (mkResponse
                             400 "Stripe webhook signature verification failed"
                             []))
  /\ existsb is_next (calls r) = false
  /\ existsb is_set (calls r) = false
  /\ vars (final_context r) !! "event" = vars c !! "event"
  /\ final_context r = c.
Proof.
  intros r Hin Hv. subst r.
  apply verify_called_iff in Hin as (Hh & Hne & Hb & ->).
  apply String.eqb_neq in Hne.
  rewrite run_handler, Hh, Hne, Hb, Hv. cbn.
  repeat split. eexists. repeat split.
Qed.

(** C4.  When the verifier is invoked and returns an event, the step
    stores the event under [event], then invokes [next] on the context
    that holds it, and ends as [next] ends: same final context (and so
    same response), same outcome. *)
Theorem accepted_event_reaches_next E args c payload header a event :
  let r := run E (handler args) c in
  In (CallVerify payload header a) (calls r) ->
  constructEventAsync E payload header a = inr event ->
  let c1 := set_var "event" event c in
  calls r = [CallHeader "stripe-signature"; CallText;
             CallVerify payload header args;
             CallSet "event" event; CallNext c1]
  /\ vars c1 !! "event" = Some event
  /\ final_context r = fst (next E c1)
  /\ res (final_context r) = res (fst (next E c1))
  /\ outcome r = snd (next E c1).
Proof.
  intros r Hin Hv c1. subst r c1.
  apply verify_called_iff in Hin as (Hh & Hne & Hb & ->).
  apply String.eqb_neq in Hne.
  rewrite run_handler, Hh, Hne, Hb, Hv. cbn.
  repeat split. apply lookup_insert_eq.
Qed.

(** ** The [event] slot *)

(** C5, as the code has it.  Start from a context whose [event] slot is
    empty, with a [next] that leaves a set slot in place.  After the step
    the slot is present if and only if the step got as far as invoking
    [next], that is, raised none of its own errors.  So the slot is present
    whenever the step completes without raising, and absent whenever the
    step raises before [next]; an error raised by [next] itself leaves the
    slot present. *)
Theorem event_present_iff_next_reached E args c :
  vars c !! "event" = None ->
  (forall c1, is_Some (vars c1 !! "event") ->
              is_Some (vars (fst (next E c1)) !! "event")) ->
  let r := run E (handler args) c in
  (is_Some (vars (final_context r) !! "event")
   <-> existsb is_next (calls r) = true)
  /\ (outcome r = inr tt -> is_Some (vars (final_context r) !! "event"))
  /\ (existsb is_next (calls r) = false ->
      vars (final_context r) !! "event" = None
      /\ exists e, outcome r = inl e).
Proof.
  intros Hnone Hnext r. subst r.
  assert (Hno : ~ is_Some (vars c !! "event"))
    by (rewrite Hnone; apply is_Some_None).
  destruct (run_handler_path E args c)
    as [Hm | sg e Hh Hne Hb | sg body cause Hh Hne Hb Hv
       | sg body event Hh Hne Hb Hv]; cbn.
  1-3: repeat split; try tauto; try discriminate; eauto.
  assert (Hset : is_Some (vars (fst (next E (set_var "event" event c)))
                          !! "event")).
  { apply Hnext. cbn. rewrite lookup_insert_eq. eauto. }
  repeat split; auto; discriminate.
Qed.

(** ** Error messages and status codes *)

(** C6, as the code has it.  The body of the error response is exactly
    "Missing stripe-signature header" when the signature header is absent,
    and exactly "Stripe webhook signature verification failed" when the
    verifier rejects. *)
Theorem error_bodies E args c :
  (req_headers c !! "stripe-signature" = None ->
   error_body_is E args c "Missing stripe-signature header")
  /\ (forall payload header a cause,
        In (CallVerify payload header a) (calls (run E (handler args) c)) ->
        constructEventAsync E payload header a = inl cause ->
        error_body_is E args c "Stripe webhook signature verification failed").
Proof.
  split.
  - intros Hh. unfold error_body_is. rewrite run_handler, Hh. cbn.
    do 2 eexists. repeat split.
  - intros payload header a cause Hin Hv. unfold error_body_is.
    apply verify_called_iff in Hin as (Hh & Hne & Hb & ->).
    apply String.eqb_neq in Hne.
    rewrite run_handler, Hh, Hne, Hb, Hv. cbn.
    do 2 eexists. repeat split.
Qed.

(** C7.  An error raised by [next] leaves the step unchanged.  Every error
    the step ends with is one of: an [HTTPException] of status 400 raised
    before [next] was invoked; the very error [next] raised; the rejection
    of the body read, passed on as it is.  The step never writes the
    response itself, so 400 is the only status it produces. *)
Theorem only_400_and_next_errors_propagate E args c :
  let r := run E (handler args) c in
  (forall c1 e, In (CallNext c1) (calls r) ->
                snd (next E c1) = inl e -> outcome r = inl e)
  /\ (forall e, outcome r = inl e ->
        (existsb is_next (calls r) = false
         /\ exists message cause, e = HTTPException 400 message cause)
        \/ (exists c1, In (CallNext c1) (calls r) /\ snd (next E c1) = inl e)
        \/ (req_body c = inl e
            /\ calls r = [CallHeader "stripe-signature"; CallText]))
  /\ (forall c1, In (CallNext c1) (calls r) -> res c1 = res c)
  /\ (existsb is_next (calls r) = false -> res (final_context r) = res c).
Proof.
  intros r. subst r.
  destruct (run_handler_path E args c)
    as [Hm | sg e0 Hh Hne Hb | sg body cause Hh Hne Hb Hv
       | sg body event Hh Hne Hb Hv]; cbn.
  - repeat split; try tauto; try (intros; intuition discriminate).
    intros e [= <-]. left. split; [reflexivity | do 2 eexists; reflexivity].
  - repeat split; try tauto; try (intros; intuition discriminate).
    intros e [= <-]. right. right. auto.
  - repeat split; try tauto; try (intros; intuition discriminate).
    intros e [= <-]. left. split; [reflexivity | do 2 eexists; reflexivity].
  - repeat split; try discriminate.
    + intros c1 e [| [| [| [| [[= <-] | []]]]]]; try discriminate. auto.
    + intros e He. right. left. eexists. split; [| exact He]. do 4 right. auto.
    + intros c1 [| [| [| [| [[= <-] | []]]]]]; try discriminate. reflexivity.
Qed.

(** ** Determinism and frame *)

(** C8.  The verdict depends on the request's signature header, its body
    and the configured arguments only.  Two executions of the step -- on
    any two contexts that carry the same signature header and the same
    body, with the same (deterministic) verifier, whatever else the
    contexts hold and whatever the downstream handlers are -- both reach
    [next] or both fail; they fail with the same error, store the same
    event and make the same calls up to [next]. *)
Theorem same_request_same_verdict (E1 E2 : Env Event Opt) args
    (c1 c2 : Context Event) :
  (forall payload header a,
      constructEventAsync E1 payload header a
      = constructEventAsync E2 payload header a) ->
  req_headers c1 !! "stripe-signature" = req_headers c2 !! "stripe-signature" ->
  req_body c1 = req_body c2 ->
  let r1 := run E1 (handler args) c1 in
  let r2 := run E2 (handler args) c2 in
  existsb is_next (calls r1) = existsb is_next (calls r2)
  /\ (existsb is_next (calls r1) = false -> outcome r1 = outcome r2)
  /\ (forall event, In (CallSet "event" event) (calls r1)
                    <-> In (CallSet "event" event) (calls r2))
  /\ List.filter (fun k => negb (is_next k)) (calls r1)
     = List.filter (fun k => negb (is_next k)) (calls r2).
Proof.
  intros Hv Hh Hb r1 r2. subst r1 r2.
  rewrite !run_handler, <- Hh, <- Hb.
  destruct (req_headers c1 !! "stripe-signature") as [signature |];
    [| cbn; repeat split; auto].
  destruct (String.eqb signature ""); [cbn; repeat split; auto |].
  destruct (req_body c1) as [e | body]; [cbn; repeat split; auto |].
  rewrite <- Hv.
  destruct (constructEventAsync E1 body signature args) as [cause | event];
    cbn; repeat split; auto; try discriminate.
  all: intros [| [| [| [| [| []]]]]]; try discriminate; auto 10.
Qed.

(** C9.  The step uses the request context only to read the
    [stripe-signature] header, to read the body and to write the [event]
    slot.  The context it hands to [next] differs from the one it received
    at most in the [event] slot; a step that ends before [next] leaves the
    context as it was, and after [next] the context is the one [next]
    left. *)
Theorem step_frame E args c :
  let r := run E (handler args) c in
  Forall context_use_allowed (calls r)
  /\ (forall c1, In (CallNext c1) (calls r) ->
                 same_but_event c c1 /\ final_context r = fst (next E c1))
  /\ (existsb is_next (calls r) = false -> final_context r = c).
Proof.
  intros r. subst r.
  destruct (run_handler_path E args c)
    as [Hm | sg e0 Hh Hne Hb | sg body cause Hh Hne Hb Hv
       | sg body event Hh Hne Hb Hv]; cbn.
  1-3: repeat split; try (intros; intuition discriminate);
       repeat constructor.
  repeat split; try discriminate; try (repeat constructor; fail).
  all: destruct H as [| [| [| [| [[= <-] | []]]]]]; try discriminate;
    try reflexivity.
  cbn. intros key Hkey. apply lookup_insert_ne. congruence.
Qed.

End Claims.

(** * The test-suite's scenarios

    The theorems above, applied to the fixtures. *)

Module Scenarios.

Import Fixture.

Lemma construction_checks_secret_witness :
  secret_shape SECRET
  /\ stripeWebhookMiddleware (Event := StripeEvent) args = inr (handler args)
  /\ ~ secret_shape "invalid"
  /\ exists e,
      stripeWebhookMiddleware (Event := StripeEvent)
                              (mkArgs (Opt := N) (JSString "invalid") [])
      = inl e
      /\ e = JSError "Invalid webhook secret"
      /\ lower (exn_message e) = "invalid webhook secret".
Proof.
  assert (Hok : secret_shape SECRET)
    by (apply RegexFacts.test_whsec_pattern; reflexivity).
  assert (Hbad : ~ secret_shape "invalid")
    by (apply not_secret_shape; reflexivity).
  split; [exact Hok |]. split.
  - exact (proj1 (proj2 (construction_checks_secret StripeEvent N args)) Hok).
  - split; [exact Hbad |].
    exact (proj1 (proj2 (proj2 (construction_checks_secret
                                  StripeEvent N
                                  (mkArgs (JSString "invalid") []))))
                 Hbad).
Defined.

Lemma missing_header_is_400_witness :
  req_headers (request None) !! "stripe-signature" = None
  /\ calls (run env_200 (handler args) (request None))
     = [CallHeader "stripe-signature"]
  /\ existsb is_next (calls (run env_200 (handler args) (request None)))
     = false.
Proof.
  assert (Hh : req_headers (request None) !! "stripe-signature" = None)
    by reflexivity.
  pose proof (missing_header_is_400 _ _ env_200 args (request None) Hh)
    as (_ & Hcalls & _ & _ & Hnext & _).
  split; [exact Hh |]. split; [exact Hcalls | exact Hnext].
Defined.

Lemma empty_header_is_missing_witness :
  req_headers (request (Some "")) !! "stripe-signature" = Some ""
  /\ outcome (run env_200 (handler args) (request (Some "")))
     = inl missing_signature
  /\ calls (run env_200 (handler args) (request (Some "")))
     = [CallHeader "stripe-signature"].
Proof.
  assert (Hh : req_headers (request (Some "")) !! "stripe-signature"
               = Some "") by reflexivity.
  pose proof (empty_header_is_missing _ _ env_200 args (request (Some "")) Hh)
    as (Hout & _ & _ & Hcalls & _).
  split; [exact Hh |]. split; [exact Hout | exact Hcalls].
Defined.

Lemma verifier_rejection_is_400_witness :
  In (CallVerify EVENT_PAYLOAD_STRING bad_header args)
     (calls (run env_200 (handler args) (request (Some bad_header))))
  /\ outcome (run env_200 (handler args) (request (Some bad_header)))
     = inl (verification_failed
              (JSError "No signatures found matching the expected signature"))
  /\ existsb is_next
       (calls (run env_200 (handler args) (request (Some bad_header))))
     = false
  /\ vars (final_context
             (run env_200 (handler args) (request (Some bad_header))))
     !! "event" = None.
Proof.
  assert (Hin : In (CallVerify EVENT_PAYLOAD_STRING bad_header args)
                   (calls (run env_200 (handler args)
                               (request (Some bad_header)))))
    by (vm_compute; auto).
  assert (Hv : constructEventAsync env_200 EVENT_PAYLOAD_STRING bad_header args
               = inl (JSError
                        "No signatures found matching the expected signature"))
    by reflexivity.
  pose proof (verifier_rejection_is_400 _ _ env_200 args
                (request (Some bad_header)) _ _ _ _ Hin Hv)
    as (_ & (e & Hout & -> & _) & Hnext & _ & Hvars & _).
  split; [exact Hin |]. split; [exact Hout |]. split; [exact Hnext |].
  rewrite Hvars. reflexivity.
Defined.

Lemma accepted_event_reaches_next_witness :
  In (CallVerify EVENT_PAYLOAD_STRING good_header args)
     (calls (run env_200 (handler args) (request (Some good_header))))
  /\ outcome (run env_200 (handler args) (request (Some good_header)))
     = inr tt
  /\ res (final_context
            (run env_200 (handler args) (request (Some good_header))))
     = Some (mkResponse 200 "" [])
  /\ vars (final_context
             (run env_200 (handler args) (request (Some good_header))))
     !! "event" = Some EVENT_PAYLOAD.
Proof.
  assert (Hin : In (CallVerify EVENT_PAYLOAD_STRING good_header args)
                   (calls (run env_200 (handler args)
                               (request (Some good_header)))))
    by (vm_compute; auto).
  assert (Hv : constructEventAsync env_200 EVENT_PAYLOAD_STRING good_header
                                   args = inr EVENT_PAYLOAD)
    by reflexivity.
  pose proof (accepted_event_reaches_next _ _ env_200 args
                (request (Some good_header)) _ _ _ _ Hin Hv)
    as (_ & _ & Hfinal & _ & Hout).
  split; [exact Hin |]. split; [rewrite Hout; reflexivity |].
  rewrite Hfinal. split; reflexivity.
Defined.

Lemma event_present_iff_next_reached_witness :
  vars (request (Some good_header)) !! "event" = None
  /\ is_Some (vars (final_context
                      (run env_200 (handler args)
                           (request (Some good_header)))) !! "event")
  /\ vars (final_context
             (run env_200 (handler args) (request (Some bad_header))))
     !! "event" = None.
Proof.
  assert (Hnone : forall h, vars (request h) !! "event" = None)
    by (intros h; reflexivity).
  assert (Hkeep : forall c1 : Context StripeEvent,
             is_Some (vars c1 !! "event") ->
             is_Some (vars (fst (next env_200 c1)) !! "event"))
    by (intros c1 H; exact H).
  split; [apply Hnone |]. split.
  - apply (proj1 (event_present_iff_next_reached
                    _ _ env_200 args (request (Some good_header))
                    (Hnone _) Hkeep)).
    reflexivity.
  - apply (proj2 (proj2 (event_present_iff_next_reached
                           _ _ env_200 args (request (Some bad_header))
                           (Hnone _) Hkeep))).
    reflexivity.
Defined.

(** C5, as stated, fails: the verifier accepts, the event is stored, and
    the downstream handler throws; the slot is present although the step
    ended with an error. *)
Lemma event_present_although_next_raised :
  ~ event_iff_completed env_throws args (request (Some good_header)).
Proof.
  unfold event_iff_completed. intros [Hcompleted _].
  assert (Hset : is_Some
                   (vars (final_context
                            (run env_throws (handler args)
                                 (request (Some good_header))))
                    !! "event"))
    by (vm_compute; eauto).
  specialize (Hcompleted Hset). vm_compute in Hcompleted.
  discriminate Hcompleted.
Qed.

Lemma error_bodies_witness :
  req_headers (request None) !! "stripe-signature" = None
  /\ error_body_is env_200 args (request None)
                   "Missing stripe-signature header"
  /\ error_body_is env_200 args (request (Some bad_header))
                   "Stripe webhook signature verification failed".
Proof.
  assert (Hh : req_headers (request None) !! "stripe-signature" = None)
    by reflexivity.
  split; [exact Hh |]. split.
  - exact (proj1 (error_bodies _ _ env_200 args (request None)) Hh).
  - apply (proj2 (error_bodies _ _ env_200 args (request (Some bad_header)))
                 EVENT_PAYLOAD_STRING bad_header args
                 (JSError
                    "No signatures found matching the expected signature")).
    + vm_compute. auto.
    + reflexivity.
Defined.

(** C6, as stated, fails: the bodies are not the two messages the claim
    quotes. *)
Lemma error_bodies_differ_from_quoted :
  ~ error_body_is env_200 args (request None) "Missing signature header"
  /\ ~ error_body_is env_200 args (request (Some bad_header))
                     "Signature verification failed".
Proof.
  split; intros (e & resp & Hout & Hresp & Hbody);
    vm_compute in Hout; injection Hout as <-;
    cbn in Hresp; injection Hresp as <-; discriminate Hbody.
Qed.

Lemma only_400_and_next_errors_propagate_witness :
  In (CallNext (set_var "event" EVENT_PAYLOAD (request (Some good_header))))
     (calls (run env_throws (handler args) (request (Some good_header))))
  /\ outcome (run env_throws (handler args) (request (Some good_header)))
     = inl (JSError "handler failed").
Proof.
  assert (Hin : In (CallNext (set_var "event" EVENT_PAYLOAD
                                      (request (Some good_header))))
                   (calls (run env_throws (handler args)
                               (request (Some good_header)))))
    by (vm_compute; auto 10).
  split; [exact Hin |].
  apply (proj1 (only_400_and_next_errors_propagate
                  _ _ env_throws args (request (Some good_header)))
               _ _ Hin).
  reflexivity.
Defined.

Lemma same_request_same_verdict_witness :
  req_headers (request (Some good_header)) !! "stripe-signature"
  = req_headers (request_in_use (Some good_header)) !! "stripe-signature"
  /\ req_body (request (Some good_header))
     = req_body (request_in_use (Some good_header))
  /\ existsb is_next
       (calls (run env_200 (handler args) (request (Some good_header))))
     = existsb is_next
         (calls (run env_throws (handler args)
                     (request_in_use (Some good_header)))).
Proof.
  assert (Hh : req_headers (request (Some good_header)) !! "stripe-signature"
               = req_headers (request_in_use (Some good_header))
                 !! "stripe-signature") by reflexivity.
  assert (Hb : req_body (request (Some good_header))
               = req_body (request_in_use (Some good_header)))
    by reflexivity.
  split; [exact Hh |]. split; [exact Hb |].
  apply (same_request_same_verdict _ _ env_200 env_throws args _ _
           (fun _ _ _ => eq_refl) Hh Hb).
Defined.

Lemma step_frame_witness :
  Forall context_use_allowed
         (calls (run env_200 (handler args)
                     (request_in_use (Some good_header))))
  /\ same_but_event
       (request_in_use (Some good_header))
       (set_var "event" EVENT_PAYLOAD (request_in_use (Some good_header))).
Proof.
  pose proof (step_frame _ _ env_200 args (request_in_use (Some good_header)))
    as (Hcalls & Hnext & _).
  split; [exact Hcalls |].
  apply Hnext. vm_compute. auto 10.
Defined.

End Scenarios.


(** * Further properties of the source *)

(** ** Strings as lists of characters *)

Lemma list_ascii_of_string_append (s1 s2 : string) :
  list_ascii_of_string (String.append s1 s2)
  = (list_ascii_of_string s1 ++ list_ascii_of_string s2)%list.
Proof.
  induction s1 as [| a s1 IH]; simpl; [reflexivity | f_equal; exact IH].
Qed.

Lemma length_list_ascii (s : string) :
  length (list_ascii_of_string s) = String.length s.
Proof.
  induction s as [| a s IH]; simpl; [reflexivity | f_equal; exact IH].
Qed.

Lemma prefix_of_list (p s : string) (t : list ascii) :
  list_ascii_of_string s = (list_ascii_of_string p ++ t)%list ->
  String.prefix p s = true.
Proof.
  revert s. induction p as [| a p IH]; intros s Hs.
  - destruct s; reflexivity.
  - destruct s as [| b s]; cbn in Hs; [discriminate |].
    injection Hs as -> Hs. cbn.
    destruct (ascii_dec a a) as [_ | Hne]; [eauto | congruence].
Qed.

Section Further.

Variables Event Opt : Type.
Implicit Types (E : Env Event Opt) (args : Args Opt) (c : Context Event).

(** ** What construction accepts *)

(** X1.  A secret that construction accepts starts with [whsec_] (in lower
    case) and is at least seven characters long; what construction returns
    is the handler closed over the arguments as they were given. *)
Theorem accepted_secret_prefix_and_length args h :
  stripeWebhookMiddleware (Event := Event) args = inr h ->
  String.prefix "whsec_" (ToString (secret args)) = true
  /\ 7 <= String.length (ToString (secret args))
  /\ h = handler args.
Proof.
  unfold stripeWebhookMiddleware.
  destruct (test whsec_pattern (ToString (secret args))) eqn:Ht; cbn;
    [| discriminate].
  intros [= <-].
  apply RegexFacts.test_whsec_pattern in Ht as (t & Hs & Hne & _).
  split; [eapply prefix_of_list; exact Hs |]. split; [| reflexivity].
  rewrite <- length_list_ascii, Hs, length_app.
  destruct t; [congruence | cbn; lia].
Qed.

(** X2.  One character that is no ASCII letter or digit, anywhere after the
    six characters of the prefix -- a trailing line end or blank, a second
    underscore, a dash -- makes construction throw. *)
Theorem stray_character_rejects_secret args (front back : string)
    (a : ascii) :
  ToString (secret args) = String.append front (String a back) ->
  6 <= String.length front ->
  is_alnum a = false ->
  stripeWebhookMiddleware (Event := Event) args
  = inl (JSError "Invalid webhook secret").
Proof.
  intros Hs Hlen Ha. unfold stripeWebhookMiddleware.
  destruct (test whsec_pattern (ToString (secret args))) eqn:Ht; cbn;
    [| reflexivity].
  exfalso.
  apply RegexFacts.test_whsec_pattern in Ht as (t & Ht & _ & Hall).
  rewrite Hs, list_ascii_of_string_append in Ht. cbn in Ht.
  rewrite <- length_list_ascii in Hlen.
  apply (f_equal (skipn 6)) in Ht.
  rewrite skipn_app in Ht. cbn [skipn app] in Ht.
  replace (6 - length (list_ascii_of_string front)) with 0 in Ht by lia.
  rewrite !drop_0 in Ht. subst t.
  rewrite forallb_app in Hall. cbn in Hall. rewrite Ha in Hall.
  rewrite andb_false_r in Hall. discriminate Hall.
Qed.

(** ** What the handler guarantees downstream *)

(** X3.  [next] runs on verified requests only: whenever [next] is invoked,
    the request carried a non-empty signature header and a readable body,
    the verifier accepted exactly that body and that header under the
    configured arguments, and the context [next] is handed is the received
    one with the verifier's event in the [event] slot. *)
Theorem next_only_after_verification E args c c1 :
  In (CallNext c1) (calls (run E (handler args) c)) ->
  exists signature body event,
    req_headers c !! "stripe-signature" = Some signature
    /\ signature <> ""
    /\ req_body c = inr body
    /\ constructEventAsync E body signature args = inr event
    /\ c1 = set_var "event" event c
    /\ vars c1 !! "event" = Some event.
Proof.
  destruct (run_handler_path E args c)
    as [Hm | sg e0 Hh Hne Hb | sg body cause Hh Hne Hb Hv
       | sg body event Hh Hne Hb Hv]; cbn; intros Hin;
    repeat (destruct Hin as [Hin | Hin]; try discriminate Hin);
    try contradiction.
  injection Hin as <-. exists sg, body, event.
  repeat split; auto. cbn. apply lookup_insert_eq.
Qed.

(** X4.  The verifier gets the request as it came: it is invoked exactly
    when the signature header is non-empty and the body can be read, and
    then on the text of the body, the value of the header and the
    arguments given at construction, none of them altered. *)
Theorem verifier_gets_request_verbatim E args c :
  let r := run E (handler args) c in
  (existsb is_verify (calls r) = true
   <-> exists signature body,
        req_headers c !! "stripe-signature" = Some signature
        /\ signature <> "" /\ req_body c = inr body)
  /\ (forall payload header a,
        In (CallVerify payload header a) (calls r) ->
        req_body c = inr payload
        /\ req_headers c !! "stripe-signature" = Some header
        /\ a = args).
Proof.
  intros r. subst r. split.
  - destruct (run_handler_path E args c)
      as [Hm | sg e0 Hh Hne Hb | sg body cause Hh Hne Hb Hv
         | sg body event Hh Hne Hb Hv]; cbn; split;
      try discriminate; try (intros _; eauto; fail).
    + intros (sg & body & Hh & Hne & _). rewrite Hh in Hm. cbn in Hm.
      apply String.eqb_eq in Hm. contradiction.
    + intros (sg' & body & _ & _ & Hb'). congruence.
  - intros payload header a Hin.
    apply verify_called_iff in Hin as (Hh & _ & Hb & Ha). auto.
Qed.

(** X5.  When reading the body fails, the step ends with the very error of
    the read -- it is not turned into a 400 --, after the header lookup and
    the read alone: the verifier and [next] are not invoked and the context
    is left as it was. *)
Theorem body_read_failure_propagates E args c signature e :
  req_headers c !! "stripe-signature" = Some signature ->
  signature <> "" ->
  req_body c = inl e ->
  let r := run E (handler args) c in
  outcome r = inl e
  /\ calls r = [CallHeader "stripe-signature"; CallText]
  /\ final_context r = c.
Proof.
  intros Hh Hne Hb r. subst r. apply String.eqb_neq in Hne.
  rewrite run_handler, Hh, Hne, Hb. cbn. auto.
Qed.


(** X7.  The step completes without an error exactly when the signature
    header is non-empty, the body is read, the verifier accepts and [next],
    run on the context holding the event, completes without an error. *)
Theorem step_succeeds_iff E args c :
  outcome (run E (handler args) c) = inr tt
  <-> exists signature body event,
      req_headers c !! "stripe-signature" = Some signature
      /\ signature <> ""
      /\ req_body c = inr body
      /\ constructEventAsync E body signature args = inr event
      /\ snd (next E (set_var "event" event c)) = inr tt.
Proof.
  split.
  - destruct (run_handler_path E args c)
      as [Hm | sg e0 Hh Hne Hb | sg body cause Hh Hne Hb Hv
         | sg body event Hh Hne Hb Hv]; cbn; try discriminate.
    intros Hout. exists sg, body, event. auto.
  - intros (sg & body & event & Hh & Hne & Hb & Hv & Hnext).
    apply String.eqb_neq in Hne.
    rewrite run_handler, Hh, Hne, Hb, Hv. exact Hnext.
Qed.

(** ** Composition *)

Lemma set_var_twice (key : string) (value : Event) c :
  set_var key value (set_var key value c) = set_var key value c.
Proof. unfold set_var. cbn. rewrite insert_insert_eq. reflexivity. Qed.

(** X8.  Placing the step twice in a row changes nothing: the step followed
    by itself ends with the outcome and the context of the step alone (the
    second pass reads the same header and body, gets the same event from
    the verifier and stores it over itself). *)
Theorem step_twice_is_step_once E args c :
  let once := run E (handler args) c in
  let twice := run (followed_by E (handler args)) (handler args) c in
  outcome twice = outcome once /\ final_context twice = final_context once.
Proof.
  intros once twice. subst once twice.
  rewrite (run_handler (followed_by E (handler args))), (run_handler E args c).
  cbn [followed_by constructEventAsync next].
  destruct (req_headers c !! "stripe-signature") as [signature |] eqn:Hh;
    [| auto].
  destruct (String.eqb signature "") eqn:Hs; [auto |].
  destruct (req_body c) as [e | body] eqn:Hb; [auto |].
  destruct (constructEventAsync E body signature args)
    as [cause | event] eqn:Hv; [auto |].
  cbn zeta. unfold step_as_next. cbn [fst snd].
  rewrite (run_handler E args (set_var "event" event c)).
  cbn [set_var req_headers req_body]. rewrite Hh, Hs, Hb, Hv.
  cbn zeta. fold (set_var "event" event c). rewrite set_var_twice.
  split; reflexivity.
Qed.

(** X9.  Dynamic configuration.  When the binding holds a well-formed
    secret, the wrapper runs as the handler built from it.  When it does
    not -- unset, empty, malformed -- every request, signed or not, ends
    with the plain error of construction instead of a 400, before the
    wrapper makes a single call: the header is not even looked up. *)
Theorem dynamic_configuration E c (STRIPE_WEBHOOK_SECRET : JSValue) :
  (secret_shape (ToString STRIPE_WEBHOOK_SECRET) ->
   run E (dynamic_middleware STRIPE_WEBHOOK_SECRET) c
   = run E (handler (mkArgs STRIPE_WEBHOOK_SECRET [])) c)
  /\ (~ secret_shape (ToString STRIPE_WEBHOOK_SECRET) ->
      run E (dynamic_middleware STRIPE_WEBHOOK_SECRET) c
      = (c, [], inl (JSError "Invalid webhook secret")))
  /\ (STRIPE_WEBHOOK_SECRET = JSUndefined ->
      run E (dynamic_middleware STRIPE_WEBHOOK_SECRET) c
      = (c, [], inl (JSError "Invalid webhook secret"))).
Proof.
  unfold dynamic_middleware, stripeWebhookMiddleware. cbn [secret].
  split; [| split].
  - intros Hs. apply RegexFacts.test_whsec_pattern in Hs. rewrite Hs.
    reflexivity.
  - intros Hs.
    destruct (test whsec_pattern (ToString STRIPE_WEBHOOK_SECRET)) eqn:Ht;
      [| reflexivity].
    apply RegexFacts.test_whsec_pattern in Ht. contradiction.
  - intros ->. reflexivity.
Qed.

End Further.

(** * Further scenarios *)

Module MoreScenarios.

Import Fixture MoreFixtures.

Lemma accepted_secret_prefix_and_length_witness :
  stripeWebhookMiddleware (Event := StripeEvent) args = inr (handler args)
  /\ String.prefix "whsec_" SECRET = true
  /\ 7 <= String.length SECRET.
Proof.
  assert (Hok : stripeWebhookMiddleware (Event := StripeEvent) args
                = inr (handler args)) by reflexivity.
  pose proof (accepted_secret_prefix_and_length StripeEvent N args _ Hok)
    as (Hprefix & Hlen & _).
  split; [exact Hok |]. split; [exact Hprefix | exact Hlen].
Defined.

Lemma stray_character_rejects_secret_witness :
  stripeWebhookMiddleware (Event := StripeEvent)
                          (mkArgs (Opt := N) (JSString secret_with_newline) [])
  = inl (JSError "Invalid webhook secret").
Proof.
  apply (stray_character_rejects_secret
           StripeEvent N (mkArgs (JSString secret_with_newline) [])
           SECRET EmptyString (ascii_of_nat 10)).
  - reflexivity.
  - vm_compute. lia.
  - reflexivity.
Defined.

Lemma next_only_after_verification_witness :
  exists signature body event,
    req_headers (request (Some good_header)) !! "stripe-signature"
    = Some signature
    /\ signature <> ""
    /\ req_body (request (Some good_header)) = inr body
    /\ constructEventAsync env_200 body signature args = inr event
    /\ set_var "event" EVENT_PAYLOAD (request (Some good_header))
       = set_var "event" event (request (Some good_header))
    /\ vars (set_var "event" EVENT_PAYLOAD (request (Some good_header)))
       !! "event" = Some event.
Proof.
  apply (next_only_after_verification
           _ _ env_200 args (request (Some good_header))).
  vm_compute. auto 10.
Defined.

Lemma verifier_gets_request_verbatim_witness :
  req_body (request (Some bad_header)) = inr EVENT_PAYLOAD_STRING
  /\ req_headers (request (Some bad_header)) !! "stripe-signature"
     = Some bad_header
  /\ args = args.
Proof.
  apply (proj2 (verifier_gets_request_verbatim
                  _ _ env_200 args (request (Some bad_header)))).
  vm_compute. auto 10.
Defined.

Lemma body_read_failure_propagates_witness :
  outcome (run env_200 (handler args) (request_unreadable (Some good_header)))
  = inl (JSError "Body is unusable")
  /\ calls (run env_200 (handler args)
                (request_unreadable (Some good_header)))
     = [CallHeader "stripe-signature"; CallText]
  /\ final_context (run env_200 (handler args)
                        (request_unreadable (Some good_header)))
     = request_unreadable (Some good_header).
Proof.
  apply (body_read_failure_propagates
           _ _ env_200 args (request_unreadable (Some good_header))
           good_header (JSError "Body is unusable")).
  - reflexivity.
  - discriminate.
  - reflexivity.
Defined.

Lemma step_succeeds_iff_witness :
  outcome (run env_200 (handler args) (request (Some good_header))) = inr tt
  /\ outcome (run env_throws (handler args) (request (Some good_header)))
     <> inr tt.
Proof.
  split.
  - apply (proj2 (step_succeeds_iff
                    _ _ env_200 args (request (Some good_header)))).
    exists good_header, EVENT_PAYLOAD_STRING, EVENT_PAYLOAD.
    repeat split. discriminate.
  - intros Hout.
    apply (proj1 (step_succeeds_iff
                    _ _ env_throws args (request (Some good_header))))
      in Hout as (sg & body & event & _ & _ & _ & _ & Hnext).
    discriminate Hnext.
Defined.

Lemma dynamic_configuration_witness :
  secret_shape (ToString (JSString SECRET))
  /\ run env_200 (dynamic_middleware (JSString SECRET))
         (request (Some good_header))
     = run env_200 (handler args) (request (Some good_header))
  /\ ~ secret_shape (ToString (JSString ""))
  /\ run env_200 (dynamic_middleware (JSString ""))
         (request (Some good_header))
     = (request (Some good_header), [],
        inl (JSError "Invalid webhook secret")).
Proof.
  assert (Hok : secret_shape (ToString (JSString SECRET)))
    by (apply RegexFacts.test_whsec_pattern; reflexivity).
  assert (Hbad : ~ secret_shape (ToString (JSString "")))
    by (apply not_secret_shape; reflexivity).
  split; [exact Hok |]. split.
  - exact (proj1 (dynamic_configuration
                    _ _ env_200 (request (Some good_header))
                    (JSString SECRET)) Hok).
  - split; [exact Hbad |].
    exact (proj1 (proj2 (dynamic_configuration
                           _ _ env_200 (request (Some good_header))
                           (JSString ""))) Hbad).
Defined.

End MoreScenarios.
